(** * ATen/mkl/MklAllocationHelp.cpp: redirecting MKL's allocation hooks to mimalloc

    The translation unit defines one function, [register_mimalloc_api_to_mkl],
    which stores the four mimalloc wrappers of [c10::mi_malloc_wrapper] into
    the four global function pointers that MKL exports through [i_malloc.h],
    and one static flag whose dynamic initialiser calls that function.  Both
    are guarded by [#if AT_MKLDNN_ENABLED()] and [#ifdef USE_MIMALLOC_ON_MKL].

    Globals are modelled as a finite store from variable names to values; the
    code is embedded in a small state-and-log monad over that store. *)

From stdpp Require Import gmap strings list fin_maps.

(** ** Values held by the globals *)

(** A C function pointer: null, or the address of a named function. *)
Inductive fnptr : Type :=
  | NULL
  | Fn (name : string).

#[global] Instance fnptr_eq_dec : EqDecision fnptr.
Proof. solve_decision. Defined.

Inductive value : Type :=
  | VFun (f : fnptr)
  | VBool (b : bool).

#[global] Instance value_eq_dec : EqDecision value.
Proof. solve_decision. Defined.

(** The store of global variables of the process. *)
Abbreviation globals := (gmap string value).

(** What a piece of code does that is visible outside it: a store to a global,
    or a call through a function pointer. *)
Inductive effect : Type :=
  | Store (x : string) (v : value)
  | Call (f : fnptr).

#[global] Instance effect_eq_dec : EqDecision effect.
Proof. solve_decision. Defined.

(** ** The monad of code over the globals *)

Definition M (A : Type) : Type := globals → A * globals * list effect.

Definition ret {A} (a : A) : M A := λ m, (a, m, []).

Definition bind {A B} (c : M A) (k : A → M B) : M B :=
  λ m, let '(a, m1, l1) := c m in
       let '(b, m2, l2) := k a m1 in
       (b, m2, l1 ++ l2).

Declare Scope code_scope.
Delimit Scope code_scope with code.
Notation "x <- c ;; k" := (bind c (λ x, k))
  (at level 100, c at next level, right associativity) : code_scope.
Notation "c ;; k" := (bind c (λ _, k))
  (at level 100, right associativity) : code_scope.
Open Scope code_scope.

(** [x = v;] for a global [x]. *)
Definition store (x : string) (v : value) : M unit :=
  λ m, (tt, <[x:=v]> m, [Store x v]).

(** [f(...)] through the pointer [f]. *)
Definition call (f : fnptr) : M unit :=
  λ m, (tt, m, [Call f]).

Definition result_of {A} (r : A * globals * list effect) : A := r.1.1.
Definition globals_of {A} (r : A * globals * list effect) : globals := r.1.2.
Definition log_of {A} (r : A * globals * list effect) : list effect := r.2.

(** ** Names of the globals *)

(** MKL's registration slots, declared in [i_malloc.h]. *)
Definition i_malloc : string := "i_malloc".
Definition i_calloc : string := "i_calloc".
Definition i_realloc : string := "i_realloc".
Definition i_free : string := "i_free".

(** The static flag of the translation unit. *)
Definition g_b_registered_mkl_alloction : string := "g_b_registered_mkl_alloction".

Definition mkl_slots : list string := [i_malloc; i_calloc; i_realloc; i_free].

(** The namespace [c10::mi_malloc_wrapper] of [c10/core/impl/alloc_cpu.h]: the
    header is not part of the sources, so its four functions are taken as
    given references. *)
Record mi_malloc_wrapper : Type := {
  c10_mi_malloc : fnptr;
  c10_mi_calloc : fnptr;
  c10_mi_realloc : fnptr;
  c10_mi_free : fnptr
}.

(** The two preprocessor switches guarding the translation unit. *)
Record build_config : Type := {
  AT_MKLDNN_ENABLED : bool;
  USE_MIMALLOC_ON_MKL : bool
}.

(** The allocation entry points of the host library. *)
Inductive host_op : Type := HostMalloc | HostCalloc | HostRealloc | HostFree.

Definition slot_of (op : host_op) : string :=
  match op with
  | HostMalloc => i_malloc
  | HostCalloc => i_calloc
  | HostRealloc => i_realloc
  | HostFree => i_free
  end.

Section MklAllocationHelp.

Variable mi : mi_malloc_wrapper.

(** [bool register_mimalloc_api_to_mkl()] *)
Definition register_mimalloc_api_to_mkl : M bool :=
  store i_malloc (VFun (c10_mi_malloc mi)) ;;
  store i_calloc (VFun (c10_mi_calloc mi)) ;;
  store i_realloc (VFun (c10_mi_realloc mi)) ;;
  store i_free (VFun (c10_mi_free mi)) ;;
  ret true.

(** [static bool g_b_registered_mkl_alloction = register_mimalloc_api_to_mkl();] *)
Definition init_g_b_registered_mkl_alloction : M unit :=
  b <- register_mimalloc_api_to_mkl ;;
  store g_b_registered_mkl_alloction (VBool b).

(** *** The translation unit under its two guards *)

(** What the preprocessed file contributes to the program: the names it
    defines and the dynamic initialisation it runs before [main]. *)
Record translation_unit : Type := {
  tu_defines : list string;
  tu_init : M unit
}.

Definition bridge_enabled (cfg : build_config) : bool :=
  AT_MKLDNN_ENABLED cfg && USE_MIMALLOC_ON_MKL cfg.

(** [#if AT_MKLDNN_ENABLED()] / [#ifdef USE_MIMALLOC_ON_MKL] ... [#endif] / [#endif] *)
Definition MklAllocationHelp (cfg : build_config) : translation_unit :=
  if AT_MKLDNN_ENABLED cfg then
    if USE_MIMALLOC_ON_MKL cfg then
      {| tu_defines := ["register_mimalloc_api_to_mkl"; g_b_registered_mkl_alloction];
         tu_init := init_g_b_registered_mkl_alloction |}
    else {| tu_defines := []; tu_init := ret tt |}
  else {| tu_defines := []; tu_init := ret tt |}.

(** The globals when the process starts, before any dynamic initialiser has
    run: [rest] holds every other global of the program (MKL's four slots
    among them, with whatever MKL put there); a static [bool] with a dynamic
    initialiser is zero-initialised first. *)
Definition process_start (cfg : build_config) (rest : globals) : globals :=
  if bridge_enabled cfg
  then <[g_b_registered_mkl_alloction := VBool false]> rest
  else rest.

(** *** The host library *)

Variable host_builtin : host_op → fnptr.

(** Modelled from the spec: MKL itself is not part of the sources.  The
    registration slot is "the host-exposed mutable location consulted for
    every allocation"; a slot that holds no function reference is "unset"
    and the host uses its built-in default. *)
Definition host_dispatch (op : host_op) (m : globals) : fnptr :=
  match m !! slot_of op with
  | Some (VFun (Fn f)) => Fn f
  | _ => host_builtin op
  end.

(** The slot of [op] holds no function reference. *)
Definition slot_unset (op : host_op) (m : globals) : bool :=
  match m !! slot_of op with
  | Some (VFun (Fn _)) => false
  | _ => true
  end.

(** Modelled from the spec: one allocation request of the host, routed
    through the slot of its operation. *)
Definition host_allocation (op : host_op) : M unit :=
  λ m, call (host_dispatch op m) m.

(** *** Executions of the process *)

(** What can happen to the globals of the bridge during a run: the dynamic
    initialiser of the flag, a direct call of the (externally linked)
    registration function, an allocation request of the host. *)
Inductive event : Type :=
  | StaticInit
  | CallRegister
  | HostAlloc (op : host_op).

Definition exec_event (e : event) : M unit :=
  match e with
  | StaticInit => init_g_b_registered_mkl_alloction
  | CallRegister => register_mimalloc_api_to_mkl ;; ret tt
  | HostAlloc op => host_allocation op
  end.

Fixpoint run_events (evs : list event) : M unit :=
  match evs with
  | [] => ret tt
  | e :: evs' => exec_event e ;; run_events evs'
  end.

(** [n] calls of the registration function in a row, with their results. *)
Fixpoint register_n (n : nat) : M (list bool) :=
  match n with
  | 0 => ret []
  | S n' =>
      b <- register_mimalloc_api_to_mkl ;;
      bs <- register_n n' ;;
      ret (b :: bs)
  end.

(** *** Reading the registration state off the globals *)

(** The four slots hold exactly the four references of [v]. *)
Definition slots_hold (v : mi_malloc_wrapper) (m : globals) : Prop :=
  m !! i_malloc = Some (VFun (c10_mi_malloc v)) ∧
  m !! i_calloc = Some (VFun (c10_mi_calloc v)) ∧
  m !! i_realloc = Some (VFun (c10_mi_realloc v)) ∧
  m !! i_free = Some (VFun (c10_mi_free v)).

(** The reference of [v] that serves the host operation [op]. *)
Definition installed (v : mi_malloc_wrapper) (op : host_op) : fnptr :=
  match op with
  | HostMalloc => c10_mi_malloc v
  | HostCalloc => c10_mi_calloc v
  | HostRealloc => c10_mi_realloc v
  | HostFree => c10_mi_free v
  end.

Definition is_null (f : fnptr) : bool :=
  match f with NULL => true | Fn _ => false end.

(** One of the four references is missing. *)
Definition has_null_reference (v : mi_malloc_wrapper) : bool :=
  is_null (c10_mi_malloc v) || is_null (c10_mi_calloc v) ||
  is_null (c10_mi_realloc v) || is_null (c10_mi_free v).

(** All four references are present. *)
Definition valid_vtable (v : mi_malloc_wrapper) : Prop :=
  has_null_reference v = false.

Inductive slot_state : Type := SlotUnset | SlotSet.

(** The state recorded by the flag [g_b_registered_mkl_alloction]. *)
Definition registration_state (m : globals) : slot_state :=
  match m !! g_b_registered_mkl_alloction with
  | Some (VBool true) => SlotSet
  | _ => SlotUnset
  end.

(** The host operations requested in a run, in order. *)
Definition host_requests (evs : list event) : list host_op :=
  omap (λ e, match e with HostAlloc op => Some op | _ => None end) evs.

(** The calls made in a log, in order. *)
Definition calls (l : list effect) : list fnptr :=
  omap (λ e, match e with Call f => Some f | Store _ _ => None end) l.

(** The globals written in a log, in order. *)
Definition written (l : list effect) : list string :=
  omap (λ e, match e with Store x _ => Some x | Call _ => None end) l.

(** *** Threads calling the registration function *)

(** A thread that is inside [register_mimalloc_api_to_mkl]: [pc] counts the
    statements it has executed, [performed] is the log of its own effects,
    [returned] is set by the [return]. *)
Record thread : Type := {
  pc : nat;
  performed : list effect;
  returned : option bool
}.

Definition new_thread : thread := {| pc := 0; performed := []; returned := None |}.

(** The statement at position [n] of the function body. *)
Definition register_statement (n : nat) : option (M unit) :=
  match n with
  | 0 => Some (store i_malloc (VFun (c10_mi_malloc mi)))
  | 1 => Some (store i_calloc (VFun (c10_mi_calloc mi)))
  | 2 => Some (store i_realloc (VFun (c10_mi_realloc mi)))
  | 3 => Some (store i_free (VFun (c10_mi_free mi)))
  | _ => None
  end.

(** One statement of one thread; after the four stores comes [return true],
    after which the thread does nothing more. *)
Definition thread_step (t : thread) : M thread :=
  λ m,
    match register_statement (pc t) with
    | Some c =>
        let '(_, m', l) := c m in
        ({| pc := S (pc t); performed := performed t ++ l; returned := None |}, m', l)
    | None =>
        match returned t with
        | None => ({| pc := pc t; performed := performed t; returned := Some true |}, m, [])
        | Some _ => (t, m, [])
        end
    end.

(** The scheduler lets thread [i] execute one statement. *)
Definition sched_step (i : nat) (pool : list thread) : M (list thread) :=
  match pool !! i with
  | Some t => t' <- thread_step t ;; ret (<[i:=t']> pool)
  | None => ret pool
  end.

Fixpoint run_schedule (sched : list nat) (pool : list thread) : M (list thread) :=
  match sched with
  | [] => ret pool
  | i :: sched' => pool' <- sched_step i pool ;; run_schedule sched' pool'
  end.

(** *** One call, unfolded *)

(** The stores of one call, in program order. *)
Definition register_log : list effect :=
  [ Store i_malloc (VFun (c10_mi_malloc mi));
    Store i_calloc (VFun (c10_mi_calloc mi));
    Store i_realloc (VFun (c10_mi_realloc mi));
    Store i_free (VFun (c10_mi_free mi)) ].

(** The globals after one call. *)
Definition registered_globals (m : globals) : globals :=
  <[i_free := VFun (c10_mi_free mi)]>
    (<[i_realloc := VFun (c10_mi_realloc mi)]>
      (<[i_calloc := VFun (c10_mi_calloc mi)]>
        (<[i_malloc := VFun (c10_mi_malloc mi)]> m))).

(** The thread that has been given [n] turns since it entered the function. *)
Definition thread_after (n : nat) : thread :=
  {| pc := n `min` 4;
     performed := take n register_log;
     returned := if 5 <=? n then Some true else None |}.

(** How many turns the schedule gives thread [i]. *)
Definition turns (i : nat) (sched : list nat) : nat :=
  length (filter (λ j, j = i) sched).

(** The store at position [k] of the function body has reached the globals. *)
Definition slot_written (k : nat) (m : globals) : Prop :=
  match k with
  | 0 => m !! i_malloc = Some (VFun (c10_mi_malloc mi))
  | 1 => m !! i_calloc = Some (VFun (c10_mi_calloc mi))
  | 2 => m !! i_realloc = Some (VFun (c10_mi_realloc mi))
  | 3 => m !! i_free = Some (VFun (c10_mi_free mi))
  | _ => True
  end.

#[global] Instance slots_hold_dec (v : mi_malloc_wrapper) (m : globals) :
  Decision (slots_hold v m).
Proof. unfold slots_hold. apply _. Defined.

(** The state of the registration slots themselves: set when the four slots
    hold the four wrappers, unset in every other condition. *)
Definition installation_state (m : globals) : slot_state :=
  if decide (slots_hold mi m) then SlotSet else SlotUnset.

(** The events that call the registration function. *)
Definition registers (e : event) : bool :=
  match e with
  | StaticInit | CallRegister => true
  | HostAlloc _ => false
  end.

(** Going from [m] to [m'], every global either kept its value or is a slot
    that now holds the reference of the vtable for it. *)
Definition only_installs (m m' : globals) : Prop :=
  ∀ x, m' !! x = m !! x ∨
       ∃ op, x = slot_of op ∧ m' !! x = Some (VFun (installed mi op)).

(** *** Concrete instances *)

(** The wrappers as [alloc_cpu.h] names them. *)
Definition mimalloc : mi_malloc_wrapper :=
  {| c10_mi_malloc := Fn "c10::mi_malloc_wrapper::c10_mi_malloc";
     c10_mi_calloc := Fn "c10::mi_malloc_wrapper::c10_mi_calloc";
     c10_mi_realloc := Fn "c10::mi_malloc_wrapper::c10_mi_realloc";
     c10_mi_free := Fn "c10::mi_malloc_wrapper::c10_mi_free" |}.

(** The C runtime as the host's built-in allocator. *)
Definition libc (op : host_op) : fnptr :=
  match op with
  | HostMalloc => Fn "malloc"
  | HostCalloc => Fn "calloc"
  | HostRealloc => Fn "realloc"
  | HostFree => Fn "free"
  end.

Definition both_switches_on : build_config :=
  {| AT_MKLDNN_ENABLED := true; USE_MIMALLOC_ON_MKL := true |}.

Definition mimalloc_switch_off : build_config :=
  {| AT_MKLDNN_ENABLED := true; USE_MIMALLOC_ON_MKL := false |}.

(** Globals of a program besides the bridge: the four slots unset, and one
    variable that has nothing to do with allocation. *)
Definition some_globals : globals :=
  {[ i_malloc := VFun NULL; i_calloc := VFun NULL;
     i_realloc := VFun NULL; i_free := VFun NULL;
     "at::globalContext" := VBool true ]}.


(** * Properties *)

(** ** Running the code *)

Lemma register_run (m : globals) :
  register_mimalloc_api_to_mkl m = (true, registered_globals m, register_log).
Proof. reflexivity. Qed.

Lemma init_run (m : globals) :
  init_g_b_registered_mkl_alloction m =
  (tt, <[g_b_registered_mkl_alloction := VBool true]> (registered_globals m),
   register_log ++ [Store g_b_registered_mkl_alloction (VBool true)]).
Proof. reflexivity. Qed.

Ltac slot_lookup :=
  unfold registered_globals;
  repeat first
    [ rewrite lookup_insert_eq
    | rewrite lookup_insert_ne by (unfold i_malloc, i_calloc, i_realloc, i_free,
                                     g_b_registered_mkl_alloction; discriminate) ].

Lemma registered_slots_hold (m : globals) : slots_hold mi (registered_globals m).
Proof. repeat split; slot_lookup; reflexivity. Qed.

Lemma registered_frame (m : globals) (x : string) :
  x ∉ mkl_slots → registered_globals m !! x = m !! x.
Proof.
  intros Hx. unfold mkl_slots in Hx.
  rewrite !not_elem_of_cons in Hx. destruct Hx as (H1 & H2 & H3 & H4 & _).
  unfold registered_globals.
  rewrite !lookup_insert_ne by congruence. reflexivity.
Qed.

Lemma registered_fixpoint (m : globals) :
  slots_hold mi m → registered_globals m = m.
Proof.
  intros (H1 & H2 & H3 & H4). unfold registered_globals.
  rewrite (insert_id m i_malloc) by exact H1.
  rewrite (insert_id m i_calloc) by exact H2.
  rewrite (insert_id m i_realloc) by exact H3.
  apply insert_id. exact H4.
Qed.

Lemma registered_idem (m : globals) :
  registered_globals (registered_globals m) = registered_globals m.
Proof. apply registered_fixpoint, registered_slots_hold. Qed.

Lemma register_n_run (n : nat) (m : globals) :
  register_n n m =
  (replicate n true, Nat.iter n registered_globals m, mjoin (replicate n register_log)).
Proof.
  revert m. induction n as [|n IH]; intros m; [reflexivity|].
  cbn [register_n]. unfold bind at 1. rewrite register_run.
  unfold bind at 1. rewrite IH. unfold ret. cbn [replicate mjoin list_join].
  rewrite app_nil_r, Nat.iter_succ_r. reflexivity.
Qed.

Lemma iter_registered (n : nat) (m : globals) :
  Nat.iter (S n) registered_globals m = registered_globals m.
Proof.
  induction n as [|n IH]; [reflexivity|].
  change (Nat.iter (S (S n)) registered_globals m)
    with (registered_globals (Nat.iter (S n) registered_globals m)).
  rewrite IH. apply registered_idem.
Qed.

(** ** The registration function alone *)

(** C8: after every call of [register_mimalloc_api_to_mkl], whatever the
    globals held before, [i_malloc], [i_calloc], [i_realloc] and [i_free] hold
    exactly [c10_mi_malloc], [c10_mi_calloc], [c10_mi_realloc] and
    [c10_mi_free]: the call performs all four stores, of this one fixed
    vtable, and after any number of further calls the slots hold the same. *)
Theorem register_overwrites_all_slots (m : globals) (n : nat) :
  slots_hold mi (globals_of (register_mimalloc_api_to_mkl m)) ∧
  log_of (register_mimalloc_api_to_mkl m) = register_log ∧
  slots_hold mi (globals_of (register_n (S n) m)).
Proof.
  rewrite register_run, register_n_run. unfold globals_of, log_of. cbn [fst snd].
  rewrite iter_registered.
  split; [apply registered_slots_hold|]. split; [reflexivity|].
  apply registered_slots_hold.
Qed.

(** C9: [register_mimalloc_api_to_mkl] returns [true] on every call, from
    every prior state, and so does each call of a repeated sequence: the
    result is constant. *)
Theorem register_returns_true (m : globals) (n : nat) :
  result_of (register_mimalloc_api_to_mkl m) = true ∧
  result_of (register_n n m) = replicate n true.
Proof. rewrite register_run, register_n_run. split; reflexivity. Qed.

(** C10: calling [register_mimalloc_api_to_mkl] twice in sequence leaves the
    globals (the four slots among them) and the returned value exactly as
    one call does. *)
Theorem register_twice_is_once (m : globals) :
  globals_of ((register_mimalloc_api_to_mkl ;; register_mimalloc_api_to_mkl) m) =
    globals_of (register_mimalloc_api_to_mkl m) ∧
  result_of ((register_mimalloc_api_to_mkl ;; register_mimalloc_api_to_mkl) m) =
    result_of (register_mimalloc_api_to_mkl m).
Proof.
  unfold bind. rewrite !register_run. unfold globals_of, result_of. cbn [fst snd].
  split; [apply registered_idem | reflexivity].
Qed.

(** C1 (amended): in every sequence of N >= 1 calls of the registration
    function each call returns [true] and performs the four stores again; as
    every call stores the same fixed vtable, the globals after the N calls are
    the globals after the first one, and the vtable installed first is the
    one the slots hold at the end. *)
Theorem register_repeated_calls (n : nat) (m : globals) :
  result_of (register_n (S n) m) = replicate (S n) true ∧
  log_of (register_n (S n) m) = mjoin (replicate (S n) register_log) ∧
  globals_of (register_n (S n) m) = globals_of (register_mimalloc_api_to_mkl m) ∧
  slots_hold mi (globals_of (register_n (S n) m)).
Proof.
  rewrite register_n_run, register_run. unfold result_of, log_of, globals_of.
  cbn [fst snd]. rewrite iter_registered.
  repeat split; try reflexivity; apply registered_slots_hold.
Qed.


(** ** Frame *)

Lemma init_frame (m : globals) (x : string) :
  x ∉ g_b_registered_mkl_alloction :: mkl_slots →
  globals_of (init_g_b_registered_mkl_alloction m) !! x = m !! x.
Proof.
  intros Hx. apply not_elem_of_cons in Hx as [Hg Hs].
  rewrite init_run. unfold globals_of. cbn [fst snd].
  rewrite lookup_insert_ne by congruence. apply registered_frame, Hs.
Qed.

Lemma registered_dom (m : globals) : dom m ⊆ dom (registered_globals m).
Proof. unfold registered_globals. rewrite !dom_insert. set_solver. Qed.

(** C6: a call of the registration function changes no global other than
    the four slots, and the dynamic initialiser none other than the four
    slots and its own flag; their effects are stores to exactly those
    globals, with no call through any function pointer (so no allocation and
    no release), and every global bound before is still bound afterwards. *)
Theorem register_frame (m : globals) :
  (∀ x, x ∉ mkl_slots →
        globals_of (register_mimalloc_api_to_mkl m) !! x = m !! x) ∧
  (∀ x, x ∉ g_b_registered_mkl_alloction :: mkl_slots →
        globals_of (init_g_b_registered_mkl_alloction m) !! x = m !! x) ∧
  written (log_of (register_mimalloc_api_to_mkl m)) = mkl_slots ∧
  calls (log_of (register_mimalloc_api_to_mkl m)) = [] ∧
  written (log_of (init_g_b_registered_mkl_alloction m)) =
    mkl_slots ++ [g_b_registered_mkl_alloction] ∧
  calls (log_of (init_g_b_registered_mkl_alloction m)) = [] ∧
  dom m ⊆ dom (globals_of (register_mimalloc_api_to_mkl m)) ∧
  dom m ⊆ dom (globals_of (init_g_b_registered_mkl_alloction m)).
Proof.
  split; [intros x Hx; rewrite register_run; apply registered_frame, Hx|].
  split; [intros x Hx; apply init_frame, Hx|].
  rewrite init_run, register_run. unfold globals_of, log_of. cbn [fst snd].
  repeat split; try reflexivity.
  - apply registered_dom.
  - rewrite dom_insert. pose proof (registered_dom m). set_solver.
Qed.

(** ** Runs of the process *)

Lemma bind_result {A B} (c : M A) (k : A → M B) (m : globals) :
  result_of (bind c k m) = result_of (k (result_of (c m)) (globals_of (c m))).
Proof.
  unfold bind, result_of, globals_of.
  destruct (c m) as [[a m1] l1]. cbn [fst snd].
  destruct (k a m1) as [[b m2] l2]. reflexivity.
Qed.

Lemma bind_globals {A B} (c : M A) (k : A → M B) (m : globals) :
  globals_of (bind c k m) = globals_of (k (result_of (c m)) (globals_of (c m))).
Proof.
  unfold bind, result_of, globals_of.
  destruct (c m) as [[a m1] l1]. cbn [fst snd].
  destruct (k a m1) as [[b m2] l2]. reflexivity.
Qed.

Lemma bind_log {A B} (c : M A) (k : A → M B) (m : globals) :
  log_of (bind c k m) =
  log_of (c m) ++ log_of (k (result_of (c m)) (globals_of (c m))).
Proof.
  unfold bind, result_of, globals_of, log_of.
  destruct (c m) as [[a m1] l1]. cbn [fst snd].
  destruct (k a m1) as [[b m2] l2]. reflexivity.
Qed.

Lemma calls_app (l1 l2 : list effect) : calls (l1 ++ l2) = calls l1 ++ calls l2.
Proof. apply omap_app. Qed.

Lemma written_app (l1 l2 : list effect) : written (l1 ++ l2) = written l1 ++ written l2.
Proof. apply omap_app. Qed.

Lemma host_dispatch_installed (op : host_op) (m : globals) :
  valid_vtable mi → slots_hold mi m → host_dispatch op m = installed mi op.
Proof.
  unfold valid_vtable, has_null_reference. intros Hv (H1 & H2 & H3 & H4).
  apply orb_false_elim in Hv as [Hv Hf].
  apply orb_false_elim in Hv as [Hv Hr].
  apply orb_false_elim in Hv as [Hm Hc].
  unfold host_dispatch.
  destruct op; cbn [slot_of installed];
    [ rewrite H1; destruct (c10_mi_malloc mi)
    | rewrite H2; destruct (c10_mi_calloc mi)
    | rewrite H3; destruct (c10_mi_realloc mi)
    | rewrite H4; destruct (c10_mi_free mi) ];
    (discriminate || reflexivity).
Qed.

Lemma host_dispatch_unset (op : host_op) (m : globals) :
  slot_unset op m = true → host_dispatch op m = host_builtin op.
Proof.
  unfold slot_unset, host_dispatch.
  destruct (m !! slot_of op) as [[[|f]|b]|]; (discriminate || reflexivity).
Qed.

Lemma exec_event_slots (e : event) (m : globals) :
  slots_hold mi m → slots_hold mi (globals_of (exec_event e m)).
Proof.
  intros Hm. destruct e as [| |op]; cbn [exec_event].
  - rewrite init_run. unfold globals_of. cbn [fst snd].
    destruct (registered_slots_hold m) as (H1 & H2 & H3 & H4).
    repeat split; (rewrite lookup_insert_ne by discriminate); assumption.
  - rewrite bind_globals, register_run. apply registered_slots_hold.
  - exact Hm.
Qed.

Lemma exec_event_state (e : event) (m : globals) :
  registration_state m = SlotSet →
  registration_state (globals_of (exec_event e m)) = SlotSet.
Proof.
  intros Hm. destruct e as [| |op]; cbn [exec_event].
  - rewrite init_run. unfold globals_of, registration_state. cbn [fst snd].
    rewrite lookup_insert_eq. reflexivity.
  - rewrite bind_globals, register_run. unfold ret, globals_of. cbn [fst snd].
    unfold registration_state in *. rewrite registered_frame; [exact Hm|].
    unfold mkl_slots. rewrite !not_elem_of_cons.
    repeat split; try discriminate. apply not_elem_of_nil.
  - exact Hm.
Qed.

Lemma exec_event_calls (e : event) (m : globals) :
  valid_vtable mi → slots_hold mi m →
  calls (log_of (exec_event e m)) = installed mi <$> host_requests [e].
Proof.
  intros Hv Hm. destruct e as [| |op]; cbn [exec_event]; try reflexivity.
  unfold host_allocation, call, log_of. cbn [snd calls omap].
  rewrite (host_dispatch_installed op m Hv Hm). reflexivity.
Qed.

Lemma run_events_slots (evs : list event) (m : globals) :
  slots_hold mi m → slots_hold mi (globals_of (run_events evs m)).
Proof.
  revert m. induction evs as [|e evs IH]; intros m Hm; [exact Hm|].
  cbn [run_events]. rewrite bind_globals. apply IH, exec_event_slots, Hm.
Qed.

Lemma run_events_state (evs : list event) (m : globals) :
  registration_state m = SlotSet →
  registration_state (globals_of (run_events evs m)) = SlotSet.
Proof.
  revert m. induction evs as [|e evs IH]; intros m Hm; [exact Hm|].
  cbn [run_events]. rewrite bind_globals. apply IH, exec_event_state, Hm.
Qed.

Lemma run_events_calls (evs : list event) (m : globals) :
  valid_vtable mi → slots_hold mi m →
  calls (log_of (run_events evs m)) = installed mi <$> host_requests evs.
Proof.
  intros Hv. revert m. induction evs as [|e evs IH]; intros m Hm; [reflexivity|].
  cbn [run_events]. rewrite bind_log, calls_app.
  rewrite (exec_event_calls e m Hv Hm), IH by (apply exec_event_slots, Hm).
  rewrite <- fmap_app. f_equal.
  unfold host_requests. change (e :: evs) with ([e] ++ evs).
  symmetry. apply omap_app.
Qed.

Lemma host_allocs_run (ops : list host_op) (m : globals) :
  run_events (HostAlloc <$> ops) m =
  (tt, m, Call <$> ((λ op, host_dispatch op m) <$> ops)).
Proof.
  induction ops as [|op ops IH]; [reflexivity|].
  cbn [fmap list_fmap run_events exec_event]. unfold bind at 1.
  unfold host_allocation at 1, call at 1.
  change (list_fmap _ _ HostAlloc ops) with (HostAlloc <$> ops). rewrite IH.
  reflexivity.
Qed.

Lemma calls_of_calls (fs : list fnptr) : calls (Call <$> fs) = fs.
Proof. induction fs as [|f fs IH]; [reflexivity|]. cbn. f_equal. exact IH. Qed.

Lemma written_of_calls (fs : list fnptr) : written (Call <$> fs) = [].
Proof. induction fs as [|f fs IH]; [reflexivity|]. exact IH. Qed.

(** C3: a call of the registration function returns [true] and leaves in the
    four slots exactly the four references of the vtable, all of them new;
    with all four references present, every allocation request the host
    makes afterwards, whatever further registrations happen in between, calls
    the installed operation of the vtable and not the host's built-in one. *)
Theorem installed_vtable_serves_host (m : globals) (evs : list event) :
  valid_vtable mi →
  result_of (register_mimalloc_api_to_mkl m) = true ∧
  slots_hold mi (globals_of (register_mimalloc_api_to_mkl m)) ∧
  slots_hold mi (globals_of (run_events evs (globals_of (register_mimalloc_api_to_mkl m)))) ∧
  calls (log_of (run_events evs (globals_of (register_mimalloc_api_to_mkl m)))) =
    installed mi <$> host_requests evs.
Proof.
  intros Hv.
  assert (Hg : globals_of (register_mimalloc_api_to_mkl m) = registered_globals m)
    by (rewrite register_run; reflexivity).
  rewrite Hg, register_run.
  pose proof (registered_slots_hold m) as Hs.
  split; [reflexivity|]. split; [exact Hs|].
  split; [apply run_events_slots, Hs | apply run_events_calls; assumption].
Qed.

(** C7: when either of the two switches is off, the translation unit defines
    nothing and initialises nothing: process start-up leaves the globals as
    they were, every allocation request of the host calls what the host's
    own slots select, the built-in default when the slots are unset, and
    nothing is written. *)
Theorem bridge_disabled_is_noop
    (cfg : build_config) (rest : globals) (ops : list host_op) :
  bridge_enabled cfg = false →
  tu_defines (MklAllocationHelp cfg) = [] ∧
  process_start cfg rest = rest ∧
  tu_init (MklAllocationHelp cfg) (process_start cfg rest) = (tt, rest, []) ∧
  globals_of ((tu_init (MklAllocationHelp cfg) ;; run_events (HostAlloc <$> ops))
                (process_start cfg rest)) = rest ∧
  written (log_of ((tu_init (MklAllocationHelp cfg) ;; run_events (HostAlloc <$> ops))
                     (process_start cfg rest))) = [] ∧
  calls (log_of ((tu_init (MklAllocationHelp cfg) ;; run_events (HostAlloc <$> ops))
                   (process_start cfg rest))) = (λ op, host_dispatch op rest) <$> ops ∧
  ((∀ op, slot_unset op rest = true) →
   calls (log_of ((tu_init (MklAllocationHelp cfg) ;; run_events (HostAlloc <$> ops))
                    (process_start cfg rest))) = host_builtin <$> ops).
Proof.
  intros Hoff.
  assert (Hstart : process_start cfg rest = rest).
  { unfold process_start. rewrite Hoff. reflexivity. }
  assert (Htu : MklAllocationHelp cfg = {| tu_defines := []; tu_init := ret tt |}).
  { unfold bridge_enabled in Hoff. unfold MklAllocationHelp.
    destruct (AT_MKLDNN_ENABLED cfg), (USE_MIMALLOC_ON_MKL cfg);
      (discriminate || reflexivity). }
  rewrite Hstart, Htu. cbn [tu_defines tu_init].
  assert (Hrun : (ret tt ;; run_events (HostAlloc <$> ops)) rest =
                 (tt, rest, Call <$> ((λ op, host_dispatch op rest) <$> ops))).
  { unfold bind, ret. rewrite host_allocs_run. reflexivity. }
  rewrite Hrun. unfold globals_of, log_of. cbn [fst snd].
  rewrite calls_of_calls, written_of_calls.
  repeat split.
  intros Hun. apply list_fmap_ext. intros i op _. apply host_dispatch_unset, Hun.
Qed.

(** ** Threads inside the registration function *)

(** The body run statement by statement is the function. *)
Lemma thread_runs_register (m : globals) :
  (t1 <- thread_step new_thread ;; t2 <- thread_step t1 ;; t3 <- thread_step t2 ;;
   t4 <- thread_step t3 ;; thread_step t4) m =
  ({| pc := 4; performed := log_of (register_mimalloc_api_to_mkl m);
      returned := Some (result_of (register_mimalloc_api_to_mkl m)) |},
   globals_of (register_mimalloc_api_to_mkl m),
   log_of (register_mimalloc_api_to_mkl m)).
Proof. reflexivity. Qed.

Lemma thread_step_after (n : nat) (m : globals) :
  result_of (thread_step (thread_after n) m) = thread_after (S n).
Proof. destruct n as [|[|[|[|[|n]]]]]; reflexivity. Qed.

Lemma thread_step_preserves (t : thread) (k : nat) (m : globals) :
  slot_written k m → slot_written k (globals_of (thread_step t m)).
Proof.
  intros Hk. unfold thread_step.
  destruct (pc t) as [|[|[|[|n]]]]; cbn [register_statement].
  1-4: unfold store, globals_of; cbn [fst snd];
       destruct k as [|[|[|[|k]]]]; cbn [slot_written] in *; try exact I;
       first [ apply lookup_insert_eq
             | rewrite lookup_insert_ne by discriminate; exact Hk ].
  destruct (returned t); exact Hk.
Qed.

Lemma thread_step_writes (n : nat) (m : globals) :
  slot_written n (globals_of (thread_step (thread_after n) m)).
Proof.
  destruct n as [|[|[|[|n]]]]; try exact I;
    unfold thread_step, thread_after, store, globals_of;
    cbn [pc Nat.min register_statement fst snd slot_written];
    apply lookup_insert_eq.
Qed.

Lemma sched_step_other (j i : nat) (pool : list thread) (m : globals) :
  j ≠ i → result_of (sched_step j pool m) !! i = pool !! i.
Proof.
  intros Hne. unfold sched_step.
  destruct (pool !! j) as [t|]; [|reflexivity].
  rewrite bind_result. unfold ret, result_of at 1. cbn [fst].
  apply list_lookup_insert_ne, Hne.
Qed.

Lemma sched_step_self (i n : nat) (pool : list thread) (m : globals) :
  pool !! i = Some (thread_after n) →
  result_of (sched_step i pool m) !! i = Some (thread_after (S n)) ∧
  slot_written n (globals_of (sched_step i pool m)).
Proof.
  intros Hi. unfold sched_step. rewrite Hi.
  rewrite bind_result, bind_globals. unfold ret, result_of at 1, globals_of at 1.
  cbn [fst snd]. rewrite thread_step_after. split.
  - apply list_lookup_insert_eq. eapply lookup_lt_Some, Hi.
  - apply thread_step_writes.
Qed.

Lemma sched_step_preserves (j k : nat) (pool : list thread) (m : globals) :
  slot_written k m → slot_written k (globals_of (sched_step j pool m)).
Proof.
  intros Hk. unfold sched_step.
  destruct (pool !! j) as [t|]; [|exact Hk].
  rewrite bind_globals. unfold ret, globals_of at 1. cbn [fst snd].
  apply thread_step_preserves, Hk.
Qed.

Lemma turns_cons (i j : nat) (sched : list nat) :
  turns i (j :: sched) = (if decide (j = i) then 1 else 0) + turns i sched.
Proof.
  unfold turns. rewrite filter_cons. destruct (decide (j = i)); reflexivity.
Qed.

Lemma run_schedule_thread (sched : list nat) (pool : list thread) (m : globals) (i n : nat) :
  pool !! i = Some (thread_after n) →
  result_of (run_schedule sched pool m) !! i = Some (thread_after (n + turns i sched)).
Proof.
  revert pool m n. induction sched as [|j sched IH]; intros pool m n Hi.
  - cbn. rewrite Nat.add_0_r. exact Hi.
  - cbn [run_schedule]. rewrite bind_result, turns_cons.
    destruct (decide (j = i)) as [->|Hne].
    + destruct (sched_step_self i n pool m Hi) as [Hi' _].
      rewrite (IH _ _ (S n) Hi'). do 2 f_equal. lia.
    + rewrite (IH _ _ n); [reflexivity|].
      rewrite sched_step_other by exact Hne. exact Hi.
Qed.

Lemma run_schedule_written (sched : list nat) (pool : list thread) (m : globals) (i n k : nat) :
  pool !! i = Some (thread_after n) →
  (k < n → slot_written k m) →
  k < n + turns i sched →
  slot_written k (globals_of (run_schedule sched pool m)).
Proof.
  revert pool m n. induction sched as [|j sched IH]; intros pool m n Hi Hm Hk.
  - cbn in Hk. apply Hm. lia.
  - cbn [run_schedule]. rewrite bind_globals. rewrite turns_cons in Hk.
    destruct (decide (j = i)) as [->|Hne].
    + destruct (sched_step_self i n pool m Hi) as [Hi' Hw].
      apply (IH _ _ (S n) Hi'); [|lia].
      intros Hlt. destruct (decide (k = n)) as [->|Hkn]; [exact Hw|].
      apply sched_step_preserves, Hm. lia.
    + apply (IH _ _ n); [| |exact Hk].
      * rewrite sched_step_other by exact Hne. exact Hi.
      * intros Hlt. apply sched_step_preserves, Hm, Hlt.
Qed.

Lemma new_pool_lookup (K i : nat) :
  i < K → replicate K new_thread !! i = Some (thread_after 0).
Proof. intros Hi. apply lookup_replicate_2, Hi. Qed.

Lemma all_slots_written (m : globals) :
  (∀ k, k < 4 → slot_written k m) → slots_hold mi m.
Proof.
  intros H. unfold slots_hold.
  repeat split; [apply (H 0)|apply (H 1)|apply (H 2)|apply (H 3)]; lia.
Qed.

(** C5 (amended): the function has no compare-and-set and reads no flag.
    When K threads call it and their stores interleave in any order, thread
    [i] is, after its turns, exactly where a sequential run would be after as
    many statements; once it has had its five turns it has performed all four
    stores and returned [true], like every other caller, and as all callers
    store the same vtable the slots then hold that vtable in full. *)
Theorem concurrent_register (K : nat) (sched : list nat) (m : globals) (i : nat) :
  i < K →
  result_of (run_schedule sched (replicate K new_thread) m) !! i =
    Some (thread_after (turns i sched)) ∧
  (5 ≤ turns i sched →
   ∃ t, result_of (run_schedule sched (replicate K new_thread) m) !! i = Some t ∧
        returned t = Some true ∧ performed t = register_log ∧
        slots_hold mi (globals_of (run_schedule sched (replicate K new_thread) m))) ∧
  (∀ t b, result_of (run_schedule sched (replicate K new_thread) m) !! i = Some t →
          returned t = Some b →
          b = true ∧ performed t = register_log ∧
          slots_hold mi (globals_of (run_schedule sched (replicate K new_thread) m))).
Proof.
  intros Hi. pose proof (new_pool_lookup K i Hi) as Hpool.
  pose proof (run_schedule_thread sched _ m i 0 Hpool) as Hthread.
  cbn [Nat.add] in Hthread.
  assert (Hfull : 5 ≤ turns i sched →
            returned (thread_after (turns i sched)) = Some true ∧
            performed (thread_after (turns i sched)) = register_log ∧
            slots_hold mi (globals_of (run_schedule sched (replicate K new_thread) m))).
  { intros H5. unfold thread_after. cbn [returned performed].
    destruct (Nat.leb_spec 5 (turns i sched)) as [_|Hlt]; [|lia].
    split; [reflexivity|]. split; [apply take_ge; cbn; lia|].
    apply all_slots_written. intros k Hk.
    apply (run_schedule_written sched _ m i 0 k Hpool); [lia|]. cbn [Nat.add]. lia. }
  split; [exact Hthread|]. split.
  - intros H5. exists (thread_after (turns i sched)). split; [exact Hthread|].
    apply Hfull, H5.
  - intros t b Ht Hb. rewrite Hthread in Ht. injection Ht as <-.
    assert (H5 : 5 ≤ turns i sched).
    { unfold thread_after in Hb. cbn [returned] in Hb.
      destruct (Nat.leb_spec 5 (turns i sched)) as [H|_]; [exact H|discriminate]. }
    destruct (Hfull H5) as (Hr & Hp & Hs).
    rewrite Hr in Hb. injection Hb as <-. auto.
Qed.

End MklAllocationHelp.

(** * The properties on concrete runs *)

Example register_on_some_globals :
  register_mimalloc_api_to_mkl mimalloc some_globals =
  (true,
   {[ i_malloc := VFun (Fn "c10::mi_malloc_wrapper::c10_mi_malloc");
      i_calloc := VFun (Fn "c10::mi_malloc_wrapper::c10_mi_calloc");
      i_realloc := VFun (Fn "c10::mi_malloc_wrapper::c10_mi_realloc");
      i_free := VFun (Fn "c10::mi_malloc_wrapper::c10_mi_free");
      "at::globalContext" := VBool true ]},
   register_log mimalloc).
Proof. vm_compute. reflexivity. Qed.

(** C1 (counterexample): a second call of the registration function, right
    after a first one, is no no-op: it returns the very value the first call
    returned and performs the four stores again. *)
Lemma second_register_call_writes_again :
  let first := register_mimalloc_api_to_mkl mimalloc some_globals in
  let second := register_mimalloc_api_to_mkl mimalloc (globals_of first) in
  result_of first = true ∧
  result_of second = result_of first ∧
  log_of second = register_log mimalloc ∧
  log_of second ≠ [].
Proof. repeat split. discriminate. Qed.


(** C5 (counterexample): two threads, the second entering after the first
    has returned.  Both get [true], so there is no single winner, and the
    second performs the four stores as well. *)
Lemma both_threads_install :
  let r := run_schedule mimalloc [0; 0; 0; 0; 0; 1; 1; 1; 1; 1]
             [new_thread; new_thread] some_globals in
  returned <$> result_of r = [Some true; Some true] ∧
  performed <$> result_of r = [register_log mimalloc; register_log mimalloc] ∧
  written (log_of r) = mkl_slots ++ mkl_slots.
Proof. vm_compute. repeat split. Qed.

(** ** The theorems at concrete inputs *)

(** C3, on a run with three host requests around a second registration and
    the initialiser: each request reaches the mimalloc wrapper of its kind. *)
Lemma installed_vtable_serves_host_witness :
  valid_vtable mimalloc ∧
  calls (log_of (run_events mimalloc libc
                   [HostAlloc HostMalloc; CallRegister; HostAlloc HostFree; StaticInit;
                    HostAlloc HostRealloc]
                   (globals_of (register_mimalloc_api_to_mkl mimalloc some_globals)))) =
  [ Fn "c10::mi_malloc_wrapper::c10_mi_malloc";
    Fn "c10::mi_malloc_wrapper::c10_mi_free";
    Fn "c10::mi_malloc_wrapper::c10_mi_realloc" ].
Proof.
  split; [reflexivity|].
  apply (installed_vtable_serves_host mimalloc libc some_globals
           [HostAlloc HostMalloc; CallRegister; HostAlloc HostFree; StaticInit;
            HostAlloc HostRealloc]).
  reflexivity.
Defined.

(** C5 (amended), on two threads whose statements alternate: the second has
    its five turns, has returned [true] after its four stores, and the slots
    hold the vtable. *)
Lemma concurrent_register_witness :
  1 < 2 ∧
  5 ≤ turns 1 [0; 1; 1; 0; 1; 1; 0; 0; 1; 0] ∧
  ∃ t, result_of (run_schedule mimalloc [0; 1; 1; 0; 1; 1; 0; 0; 1; 0]
                    [new_thread; new_thread] some_globals) !! 1 = Some t ∧
       returned t = Some true ∧ performed t = register_log mimalloc ∧
       slots_hold mimalloc
         (globals_of (run_schedule mimalloc [0; 1; 1; 0; 1; 1; 0; 0; 1; 0]
                        [new_thread; new_thread] some_globals)).
Proof.
  assert (H12 : 1 < 2) by lia.
  assert (H5 : 5 ≤ turns 1 [0; 1; 1; 0; 1; 1; 0; 0; 1; 0]) by (vm_compute; lia).
  split; [exact H12|]. split; [exact H5|].
  destruct (concurrent_register mimalloc 2 [0; 1; 1; 0; 1; 1; 0; 0; 1; 0]
              some_globals 1 H12) as (_ & Hdone & _).
  apply Hdone, H5.
Defined.

(** C6, on a global that is none of the slots and not the flag. *)
Lemma register_frame_witness :
  ("at::globalContext" ∉ mkl_slots) ∧
  ("at::globalContext" ∉ g_b_registered_mkl_alloction :: mkl_slots) ∧
  globals_of (register_mimalloc_api_to_mkl mimalloc some_globals) !! "at::globalContext" =
    some_globals !! "at::globalContext" ∧
  globals_of (init_g_b_registered_mkl_alloction mimalloc some_globals) !! "at::globalContext" =
    some_globals !! "at::globalContext".
Proof.
  assert (Hx : "at::globalContext" ∉ mkl_slots).
  { unfold mkl_slots. rewrite !not_elem_of_cons.
    repeat split; try discriminate. apply not_elem_of_nil. }
  assert (Hy : "at::globalContext" ∉ g_b_registered_mkl_alloction :: mkl_slots).
  { rewrite not_elem_of_cons. split; [discriminate | exact Hx]. }
  split; [exact Hx|]. split; [exact Hy|].
  destruct (register_frame mimalloc some_globals) as (Hframe & Hinit & _).
  split; [apply Hframe, Hx | apply Hinit, Hy].
Defined.

(** C7, with the mimalloc switch off and the slots unset: the host calls the
    C runtime. *)
Lemma bridge_disabled_is_noop_witness :
  bridge_enabled mimalloc_switch_off = false ∧
  tu_defines (MklAllocationHelp mimalloc mimalloc_switch_off) = [] ∧
  calls (log_of ((tu_init (MklAllocationHelp mimalloc mimalloc_switch_off) ;;
                  run_events mimalloc libc (HostAlloc <$> [HostMalloc; HostFree]))
                   (process_start mimalloc_switch_off some_globals))) =
    libc <$> [HostMalloc; HostFree].
Proof.
  split; [reflexivity|].
  destruct (bridge_disabled_is_noop mimalloc libc mimalloc_switch_off some_globals
              [HostMalloc; HostFree] eq_refl)
    as (Hdef & _ & _ & _ & _ & _ & Hbuiltin).
  split; [exact Hdef|].
  apply Hbuiltin. intros []; reflexivity.
Defined.

(** * Further properties of the translation unit *)

Section Further.

Variable mi : mi_malloc_wrapper.
Variable host_builtin : host_op → fnptr.

Lemma flag_is_no_slot : g_b_registered_mkl_alloction ∉ mkl_slots.
Proof.
  unfold mkl_slots. rewrite !not_elem_of_cons.
  repeat split; try discriminate. apply not_elem_of_nil.
Qed.

Lemma init_globals (m : globals) :
  globals_of (init_g_b_registered_mkl_alloction mi m) =
  <[g_b_registered_mkl_alloction := VBool true]> (registered_globals mi m).
Proof. rewrite init_run. reflexivity. Qed.

Lemma init_slots_hold (m : globals) :
  slots_hold mi (globals_of (init_g_b_registered_mkl_alloction mi m)).
Proof.
  rewrite init_globals.
  destruct (registered_slots_hold mi m) as (H1 & H2 & H3 & H4).
  repeat split; (rewrite lookup_insert_ne by discriminate); assumption.
Qed.

Lemma register_keeps_state (m : globals) :
  registration_state (globals_of (register_mimalloc_api_to_mkl mi m)) =
  registration_state m.
Proof.
  rewrite register_run. unfold globals_of, registration_state. cbn [fst snd].
  rewrite registered_frame by apply flag_is_no_slot. reflexivity.
Qed.

Lemma exec_event_flag (e : event) (m : globals) :
  registration_state (globals_of (exec_event mi host_builtin e m)) = SlotSet ↔
  e = StaticInit ∨ registration_state m = SlotSet.
Proof.
  destruct e as [| |op]; cbn [exec_event].
  - split; [auto|]. intros _. rewrite init_globals. unfold registration_state.
    rewrite lookup_insert_eq. reflexivity.
  - rewrite bind_globals. unfold ret at 1, globals_of at 1. cbn [fst snd].
    rewrite register_keeps_state. split; [auto|]. intros [H|H]; [discriminate|exact H].
  - unfold host_allocation, call, globals_of. cbn [fst snd].
    split; [auto|]. intros [H|H]; [discriminate|exact H].
Qed.

Lemma run_events_flag (evs : list event) (m : globals) :
  registration_state (globals_of (run_events mi host_builtin evs m)) = SlotSet ↔
  StaticInit ∈ evs ∨ registration_state m = SlotSet.
Proof.
  revert m. induction evs as [|e evs IH]; intros m.
  - cbn. split; [auto|]. intros [H|H]; [|exact H]. apply elem_of_nil in H as [].
  - cbn [run_events]. rewrite bind_globals, IH, exec_event_flag, elem_of_cons.
    split; [intros [H|[H|H]] | intros [[H|H]|H]]; auto.
Qed.

Lemma exec_event_installed (e : event) (m : globals) :
  (registration_state m = SlotSet → slots_hold mi m) →
  registration_state (globals_of (exec_event mi host_builtin e m)) = SlotSet →
  slots_hold mi (globals_of (exec_event mi host_builtin e m)).
Proof.
  intros Hinv. destruct e as [| |op]; cbn [exec_event].
  - intros _. apply init_slots_hold.
  - intros _. rewrite bind_globals, register_run. apply registered_slots_hold.
  - exact Hinv.
Qed.

Lemma run_events_installed (evs : list event) (m : globals) :
  (registration_state m = SlotSet → slots_hold mi m) →
  registration_state (globals_of (run_events mi host_builtin evs m)) = SlotSet →
  slots_hold mi (globals_of (run_events mi host_builtin evs m)).
Proof.
  revert m. induction evs as [|e evs IH]; intros m Hinv; [exact Hinv|].
  cbn [run_events]. rewrite bind_globals. apply IH, exec_event_installed, Hinv.
Qed.

Lemma process_start_unset (cfg : build_config) (rest : globals) :
  bridge_enabled cfg = true → registration_state (process_start cfg rest) = SlotUnset.
Proof.
  intros Hon. unfold process_start, registration_state. rewrite Hon.
  rewrite lookup_insert_eq. reflexivity.
Qed.

(** X1: with the bridge compiled in, along every run from process start the
    flag is a sound witness of the installation: in whatever globals a run
    ends, if [g_b_registered_mkl_alloction] is set then the four slots hold
    the four wrappers. *)
Theorem flag_set_implies_installed
    (cfg : build_config) (rest : globals) (evs : list event) :
  bridge_enabled cfg = true →
  registration_state
    (globals_of (run_events mi host_builtin evs (process_start cfg rest))) = SlotSet →
  slots_hold mi (globals_of (run_events mi host_builtin evs (process_start cfg rest))).
Proof.
  intros Hon. apply run_events_installed.
  rewrite (process_start_unset cfg rest Hon). discriminate.
Qed.

(** X2: the flag records that the dynamic initialiser has run, and nothing
    else: along a run from process start it is set exactly when the
    initialiser is among the events.  Direct calls of
    [register_mimalloc_api_to_mkl] install the vtable but leave the flag as
    it was. *)
Theorem flag_set_iff_initialiser_ran
    (cfg : build_config) (rest : globals) (evs : list event) :
  bridge_enabled cfg = true →
  (registration_state
     (globals_of (run_events mi host_builtin evs (process_start cfg rest))) = SlotSet ↔
   StaticInit ∈ evs) ∧
  (∀ n m, registration_state (globals_of (register_n mi n m)) = registration_state m).
Proof.
  intros Hon. split.
  - rewrite run_events_flag, (process_start_unset cfg rest Hon).
    split; [intros [H|H]; [exact H|discriminate] | auto].
  - intros n. induction n as [|n IH]; intros m; [reflexivity|].
    cbn [register_n]. rewrite bind_globals, bind_globals.
    unfold ret at 1, globals_of at 1. cbn [fst snd].
    rewrite IH. apply register_keeps_state.
Qed.

Lemma slot_lookup_registered (m : globals) (x : string) :
  x ∈ mkl_slots → ∃ v, ∀ m0 : globals, registered_globals mi m0 !! x = Some v.
Proof.
  unfold mkl_slots. rewrite !elem_of_cons.
  intros [->|[->|[->|[->|H]]]]; [| | | |apply elem_of_nil in H as []];
    eexists; intros m0; destruct (registered_slots_hold mi m0) as (H1 & H2 & H3 & H4);
    [exact H1|exact H2|exact H3|exact H4].
Qed.

(** X3: a call overwrites without reading.  Two stores of globals that agree
    outside the four slots give the same result, the same globals and the
    same effects: nothing of what the slots held before survives the call or
    influences it. *)
Theorem register_forgets_previous_slots (m m' : globals) :
  (∀ x, x ∉ mkl_slots → m !! x = m' !! x) →
  register_mimalloc_api_to_mkl mi m = register_mimalloc_api_to_mkl mi m'.
Proof.
  intros Hagree. rewrite !register_run. do 2 f_equal.
  apply map_eq. intros x. destruct (decide (x ∈ mkl_slots)) as [Hin|Hout].
  - destruct (slot_lookup_registered m x Hin) as [v Hv]. rewrite !Hv. reflexivity.
  - rewrite !registered_frame by exact Hout. apply Hagree, Hout.
Qed.

(** X4: how the function and the initialiser compose.  The initialiser
    absorbs a call made before it, a call made after it changes no global at
    all, and running the initialiser again changes no global either. *)
Theorem initialiser_absorbs_register (m : globals) :
  globals_of ((register_mimalloc_api_to_mkl mi ;; init_g_b_registered_mkl_alloction mi) m) =
    globals_of (init_g_b_registered_mkl_alloction mi m) ∧
  globals_of ((init_g_b_registered_mkl_alloction mi ;; register_mimalloc_api_to_mkl mi) m) =
    globals_of (init_g_b_registered_mkl_alloction mi m) ∧
  globals_of ((init_g_b_registered_mkl_alloction mi ;; init_g_b_registered_mkl_alloction mi) m) =
    globals_of (init_g_b_registered_mkl_alloction mi m).
Proof.
  rewrite !bind_globals, !init_globals.
  assert (Hreg : ∀ m0, globals_of (register_mimalloc_api_to_mkl mi m0) =
                       registered_globals mi m0)
    by (intros m0; rewrite register_run; reflexivity).
  rewrite !Hreg, registered_idem.
  assert (Hfix : registered_globals mi
                   (<[g_b_registered_mkl_alloction := VBool true]> (registered_globals mi m)) =
                 <[g_b_registered_mkl_alloction := VBool true]> (registered_globals mi m)).
  { apply registered_fixpoint. rewrite <- init_globals. apply init_slots_hold. }
  rewrite Hfix. split; [reflexivity|]. split; [reflexivity|].
  apply insert_insert_eq.
Qed.

(** X5: the two guards together.  Start-up stores anything only when both
    switches are on; then it stores the four slots and the flag, in that
    order, after which the slots hold the wrappers, the flag is set, and
    every other global is as the rest of the program had it. *)
Theorem startup_by_configuration (cfg : build_config) (rest : globals) :
  written (log_of (tu_init (MklAllocationHelp mi cfg) (process_start cfg rest))) =
    (if AT_MKLDNN_ENABLED cfg
     then if USE_MIMALLOC_ON_MKL cfg
          then mkl_slots ++ [g_b_registered_mkl_alloction] else []
     else []) ∧
  (AT_MKLDNN_ENABLED cfg = true → USE_MIMALLOC_ON_MKL cfg = true →
   slots_hold mi (globals_of (tu_init (MklAllocationHelp mi cfg) (process_start cfg rest))) ∧
   registration_state
     (globals_of (tu_init (MklAllocationHelp mi cfg) (process_start cfg rest))) = SlotSet ∧
   ∀ x, x ∉ g_b_registered_mkl_alloction :: mkl_slots →
        globals_of (tu_init (MklAllocationHelp mi cfg) (process_start cfg rest)) !! x =
        rest !! x).
Proof.
  unfold MklAllocationHelp, process_start, bridge_enabled.
  destruct (AT_MKLDNN_ENABLED cfg), (USE_MIMALLOC_ON_MKL cfg); cbn [andb tu_init];
    (split; [reflexivity|]); try (intros; discriminate).
  intros _ _. split; [apply init_slots_hold|]. split.
  - rewrite init_globals. unfold registration_state. rewrite lookup_insert_eq. reflexivity.
  - intros x Hx. rewrite init_frame by exact Hx.
    apply not_elem_of_cons in Hx as [Hx _]. apply lookup_insert_ne. congruence.
Qed.

(** ** Interleaved callers *)

Lemma only_installs_refl (m : globals) : only_installs mi m m.
Proof. intros x. left. reflexivity. Qed.

Lemma only_installs_trans (m1 m2 m3 : globals) :
  only_installs mi m1 m2 → only_installs mi m2 m3 → only_installs mi m1 m3.
Proof.
  intros H12 H23 x. destruct (H23 x) as [H|H]; [|right; exact H].
  rewrite H. apply H12.
Qed.

Lemma store_only_installs (op : host_op) (m : globals) :
  only_installs mi m (<[slot_of op := VFun (installed mi op)]> m).
Proof.
  intros x. destruct (decide (slot_of op = x)) as [<-|Hne].
  - right. exists op. split; [reflexivity | apply lookup_insert_eq].
  - left. apply lookup_insert_ne, Hne.
Qed.

Lemma single_store_logged (e0 : effect) :
  e0 ∈ register_log mi → ∀ e, e ∈ [e0] → e ∈ register_log mi.
Proof.
  intros Hin e He.
  apply elem_of_cons in He as [->|He]; [exact Hin|]. apply elem_of_nil in He as [].
Qed.

Lemma thread_step_only_installs (t : thread) (m : globals) :
  only_installs mi m (globals_of (thread_step mi t m)) ∧
  ∀ e, e ∈ log_of (thread_step mi t m) → e ∈ register_log mi.
Proof.
  unfold thread_step.
  destruct (pc t) as [|[|[|[|n]]]]; cbn [register_statement].
  - split; [apply (store_only_installs HostMalloc)|].
    apply single_store_logged. unfold register_log. rewrite !elem_of_cons. auto 6.
  - split; [apply (store_only_installs HostCalloc)|].
    apply single_store_logged. unfold register_log. rewrite !elem_of_cons. auto 6.
  - split; [apply (store_only_installs HostRealloc)|].
    apply single_store_logged. unfold register_log. rewrite !elem_of_cons. auto 6.
  - split; [apply (store_only_installs HostFree)|].
    apply single_store_logged. unfold register_log. rewrite !elem_of_cons. auto 6.
  - destruct (returned t); (split; [apply only_installs_refl|]);
      intros e He; apply elem_of_nil in He as [].
Qed.

Lemma sched_step_only_installs (j : nat) (pool : list thread) (m : globals) :
  only_installs mi m (globals_of (sched_step mi j pool m)) ∧
  (∀ e, e ∈ log_of (sched_step mi j pool m) → e ∈ register_log mi) ∧
  length (result_of (sched_step mi j pool m)) = length pool.
Proof.
  unfold sched_step. destruct (pool !! j) as [t|].
  - destruct (thread_step_only_installs t m) as [Hm Hl].
    unfold bind, ret. destruct (thread_step mi t m) as [[t' m'] l].
    unfold globals_of, log_of, result_of in *. cbn [fst snd] in *.
    rewrite app_nil_r, length_insert. auto.
  - split; [apply only_installs_refl|]. split; [|reflexivity].
    intros e He. apply elem_of_nil in He as [].
Qed.

(** X6: whatever threads are inside the function and however the scheduler
    interleaves their statements, the run writes nothing but the vtable:
    every global either keeps its value or is a slot holding the wrapper
    meant for it (never a third value, never a wrapper in the wrong slot),
    every effect is one of the four stores of the function, and no thread
    appears or disappears. *)
Theorem interleaved_calls_only_install
    (sched : list nat) (pool : list thread) (m : globals) :
  only_installs mi m (globals_of (run_schedule mi sched pool m)) ∧
  (∀ e, e ∈ log_of (run_schedule mi sched pool m) → e ∈ register_log mi) ∧
  length (result_of (run_schedule mi sched pool m)) = length pool.
Proof.
  revert pool m. induction sched as [|j sched IH]; intros pool m.
  - split; [apply only_installs_refl|]. split; [|reflexivity].
    intros e He. apply elem_of_nil in He as [].
  - cbn [run_schedule]. rewrite bind_globals, bind_log, bind_result.
    destruct (sched_step_only_installs j pool m) as (Hm & Hl & Hlen).
    destruct (IH (result_of (sched_step mi j pool m))
                 (globals_of (sched_step mi j pool m))) as (Hm' & Hl' & Hlen').
    split; [eapply only_installs_trans; eassumption|].
    split; [|rewrite Hlen'; exact Hlen].
    intros e He. apply elem_of_app in He as [He|He]; auto.
Qed.

(** ** The state of the registration slots *)

Lemma installation_state_set (m : globals) :
  installation_state mi m = SlotSet ↔ slots_hold mi m.
Proof.
  unfold installation_state. destruct (decide (slots_hold mi m)) as [H|H].
  - split; [intros _; exact H | reflexivity].
  - split; [discriminate | intros H'; destruct (H H')].
Qed.

Lemma exec_event_installation (e : event) (m : globals) :
  installation_state mi (globals_of (exec_event mi host_builtin e m)) = SlotSet ↔
  registers e = true ∨ installation_state mi m = SlotSet.
Proof.
  destruct e as [| |op]; cbn [exec_event registers].
  - split; [auto|]. intros _. apply installation_state_set, init_slots_hold.
  - split; [auto|]. intros _. apply installation_state_set.
    rewrite bind_globals, register_run. apply registered_slots_hold.
  - unfold host_allocation, call, globals_of. cbn [fst snd].
    split; [auto|]. intros [H|H]; [discriminate|exact H].
Qed.

Lemma run_events_installation (evs : list event) (m : globals) :
  installation_state mi (globals_of (run_events mi host_builtin evs m)) = SlotSet ↔
  (∃ e, e ∈ evs ∧ registers e = true) ∨ installation_state mi m = SlotSet.
Proof.
  revert m. induction evs as [|e evs IH]; intros m.
  - cbn. split; [auto|]. intros [(e & He & _)|H]; [|exact H].
    apply elem_of_nil in He as [].
  - cbn [run_events]. rewrite bind_globals, IH, exec_event_installation. split.
    + intros [(e' & He' & Hr)|[Hr|Hm]].
      * left. exists e'. split; [apply elem_of_cons; auto | exact Hr].
      * left. exists e. split; [apply elem_of_cons; auto | exact Hr].
      * right. exact Hm.
    + intros [(e' & He' & Hr)|Hm]; [|auto].
      apply elem_of_cons in He' as [->|He']; [auto|].
      left. exists e'. auto.
Qed.

Lemma process_start_slot (cfg : build_config) (rest : globals) (op : host_op) :
  process_start cfg rest !! slot_of op = rest !! slot_of op.
Proof.
  unfold process_start. destruct (bridge_enabled cfg); [|reflexivity].
  apply lookup_insert_ne. destruct op; discriminate.
Qed.

Lemma unset_slots_not_installed (m : globals) :
  valid_vtable mi → slot_unset HostMalloc m = true → ¬ slots_hold mi m.
Proof.
  unfold valid_vtable, has_null_reference, slot_unset. cbn [slot_of].
  intros Hv Hun (H1 & _). rewrite H1 in Hun.
  destruct (c10_mi_malloc mi); [discriminate Hv | discriminate Hun].
Qed.

(** C4: the registration slots have two states, set when they hold the four
    wrappers and unset otherwise, as at process start, when they hold no
    function.  The first successful call of the registration function, made
    directly or by the flag's initialiser, takes them from unset to set:
    along a run from process start they are set exactly when such a call has
    happened, and no event takes them back.  The flag follows: it is unset at
    process start, set by the initialiser, never reset, and whenever it is
    set the slots are set. *)
Theorem registration_state_machine
    (cfg : build_config) (rest m : globals) (evs : list event) :
  (installation_state mi m = SlotSet ↔ slots_hold mi m) ∧
  (valid_vtable mi → (∀ op, slot_unset op rest = true) →
   installation_state mi (process_start cfg rest) = SlotUnset ∧
   (installation_state mi
      (globals_of (run_events mi host_builtin evs (process_start cfg rest))) = SlotSet ↔
    ∃ e, e ∈ evs ∧ registers e = true)) ∧
  (result_of (register_mimalloc_api_to_mkl mi m) = true ∧
   installation_state mi (globals_of (register_mimalloc_api_to_mkl mi m)) = SlotSet) ∧
  installation_state mi (globals_of (init_g_b_registered_mkl_alloction mi m)) = SlotSet ∧
  (installation_state mi m = SlotSet →
   installation_state mi (globals_of (run_events mi host_builtin evs m)) = SlotSet) ∧
  (bridge_enabled cfg = true →
   registration_state (process_start cfg rest) = SlotUnset ∧
   registration_state
     (globals_of (tu_init (MklAllocationHelp mi cfg) (process_start cfg rest))) = SlotSet ∧
   installation_state mi
     (globals_of (tu_init (MklAllocationHelp mi cfg) (process_start cfg rest))) = SlotSet ∧
   (registration_state
      (globals_of (run_events mi host_builtin evs (process_start cfg rest))) = SlotSet →
    installation_state mi
      (globals_of (run_events mi host_builtin evs (process_start cfg rest))) = SlotSet)) ∧
  (registration_state m = SlotSet →
   registration_state (globals_of (run_events mi host_builtin evs m)) = SlotSet).
Proof.
  split; [apply installation_state_set|].
  split.
  { intros Hv Hun.
    assert (Hstart : installation_state mi (process_start cfg rest) = SlotUnset).
    { unfold installation_state.
      destruct (decide (slots_hold mi (process_start cfg rest))) as [H|_]; [|reflexivity].
      destruct (unset_slots_not_installed (process_start cfg rest) Hv); [|exact H].
      unfold slot_unset. rewrite process_start_slot. apply (Hun HostMalloc). }
    split; [exact Hstart|].
    rewrite run_events_installation, Hstart.
    split; [intros [H|H]; [exact H|discriminate] | auto]. }
  split.
  { rewrite register_run. split; [reflexivity|].
    apply installation_state_set, registered_slots_hold. }
  split; [apply installation_state_set, init_slots_hold|].
  split; [intros Hm; apply run_events_installation; auto|].
  split.
  { intros Hon.
    assert (Htu : tu_init (MklAllocationHelp mi cfg) = init_g_b_registered_mkl_alloction mi).
    { unfold bridge_enabled in Hon. unfold MklAllocationHelp.
      destruct (AT_MKLDNN_ENABLED cfg), (USE_MIMALLOC_ON_MKL cfg);
        (discriminate || reflexivity). }
    rewrite Htu.
    split; [apply process_start_unset, Hon|].
    split; [rewrite init_globals; unfold registration_state;
            rewrite lookup_insert_eq; reflexivity|].
    split; [apply installation_state_set, init_slots_hold|].
    intros Hflag. apply installation_state_set, run_events_installed; [|exact Hflag].
    rewrite (process_start_unset cfg rest Hon). discriminate. }
  intros Hm. apply run_events_flag. auto.
Qed.

End Further.

(** ** The further properties at concrete inputs *)

(** X1, on a run with a direct call, the initialiser and a host request. *)
Lemma flag_set_implies_installed_witness :
  bridge_enabled both_switches_on = true ∧
  registration_state
    (globals_of (run_events mimalloc libc [CallRegister; StaticInit; HostAlloc HostMalloc]
                   (process_start both_switches_on some_globals))) = SlotSet ∧
  slots_hold mimalloc
    (globals_of (run_events mimalloc libc [CallRegister; StaticInit; HostAlloc HostMalloc]
                   (process_start both_switches_on some_globals))).
Proof.
  split; [reflexivity|]. split; [vm_compute; reflexivity|].
  apply (flag_set_implies_installed mimalloc libc both_switches_on some_globals
           [CallRegister; StaticInit; HostAlloc HostMalloc]).
  - reflexivity.
  - vm_compute. reflexivity.
Defined.

(** X2, on a run of direct calls only: the flag stays unset. *)
Lemma flag_set_iff_initialiser_ran_witness :
  bridge_enabled both_switches_on = true ∧
  registration_state
    (globals_of (run_events mimalloc libc [CallRegister; CallRegister]
                   (process_start both_switches_on some_globals))) ≠ SlotSet.
Proof.
  split; [reflexivity|].
  destruct (flag_set_iff_initialiser_ran mimalloc libc both_switches_on some_globals
              [CallRegister; CallRegister] eq_refl) as [Hiff _].
  intros Hset. apply Hiff in Hset.
  apply elem_of_cons in Hset as [Hset|Hset]; [discriminate Hset|].
  apply elem_of_cons in Hset as [Hset|Hset]; [discriminate Hset|].
  apply elem_of_nil in Hset as [].
Defined.

(** X3, on two stores that differ in what [i_malloc] held. *)
Lemma register_forgets_previous_slots_witness :
  (∀ x, x ∉ mkl_slots →
        some_globals !! x = <[i_malloc := VFun (Fn "malloc")]> some_globals !! x) ∧
  register_mimalloc_api_to_mkl mimalloc some_globals =
  register_mimalloc_api_to_mkl mimalloc (<[i_malloc := VFun (Fn "malloc")]> some_globals).
Proof.
  assert (Hagree : ∀ x, x ∉ mkl_slots →
            some_globals !! x = <[i_malloc := VFun (Fn "malloc")]> some_globals !! x).
  { intros x Hx. symmetry. apply lookup_insert_ne. intros <-. apply Hx.
    unfold mkl_slots. apply elem_of_cons. left. reflexivity. }
  split; [exact Hagree|].
  apply (register_forgets_previous_slots mimalloc some_globals
           (<[i_malloc := VFun (Fn "malloc")]> some_globals) Hagree).
Defined.

(** X5, with both switches on. *)
Lemma startup_by_configuration_witness :
  AT_MKLDNN_ENABLED both_switches_on = true ∧
  USE_MIMALLOC_ON_MKL both_switches_on = true ∧
  slots_hold mimalloc
    (globals_of (tu_init (MklAllocationHelp mimalloc both_switches_on)
                   (process_start both_switches_on some_globals))) ∧
  registration_state
    (globals_of (tu_init (MklAllocationHelp mimalloc both_switches_on)
                   (process_start both_switches_on some_globals))) = SlotSet.
Proof.
  split; [reflexivity|]. split; [reflexivity|].
  destruct (startup_by_configuration mimalloc both_switches_on some_globals)
    as [_ Hon].
  destruct (Hon eq_refl eq_refl) as (Hslots & Hstate & _).
  split; [exact Hslots | exact Hstate].
Defined.

(** C4, on a run in which a direct call comes first and the initialiser
    never runs: unset at start, set at the end; and with both switches on
    the flag is unset at start and set by start-up together with the
    slots. *)
Lemma registration_state_machine_witness :
  valid_vtable mimalloc ∧
  (∀ op, slot_unset op some_globals = true) ∧
  bridge_enabled both_switches_on = true ∧
  installation_state mimalloc (process_start both_switches_on some_globals) = SlotUnset ∧
  installation_state mimalloc
    (globals_of (run_events mimalloc libc
                   [HostAlloc HostMalloc; CallRegister; HostAlloc HostFree]
                   (process_start both_switches_on some_globals))) = SlotSet ∧
  registration_state (process_start both_switches_on some_globals) = SlotUnset ∧
  registration_state
    (globals_of (tu_init (MklAllocationHelp mimalloc both_switches_on)
                   (process_start both_switches_on some_globals))) = SlotSet ∧
  installation_state mimalloc
    (globals_of (tu_init (MklAllocationHelp mimalloc both_switches_on)
                   (process_start both_switches_on some_globals))) = SlotSet.
Proof.
  assert (Hv : valid_vtable mimalloc) by reflexivity.
  assert (Hun : ∀ op, slot_unset op some_globals = true) by (intros []; reflexivity).
  split; [exact Hv|]. split; [exact Hun|]. split; [reflexivity|].
  destruct (registration_state_machine mimalloc libc both_switches_on some_globals
              some_globals [HostAlloc HostMalloc; CallRegister; HostAlloc HostFree])
    as (_ & Hslots & _ & _ & _ & Hflag & _).
  destruct (Hslots Hv Hun) as [Hstart Hiff].
  destruct (Hflag eq_refl) as (Hf0 & Hf1 & Hs1 & _).
  split; [exact Hstart|].
  split.
  { apply Hiff. exists CallRegister. split; [|reflexivity].
    apply elem_of_cons. right. apply elem_of_cons. left. reflexivity. }
  split; [exact Hf0|]. split; [exact Hf1 | exact Hs1].
Defined.
